(** * A shallow embedding of [app.py] of mcp-search-engine

    The service keeps a process-wide static catalog [ranked_mcps] (a list of
    mutable dicts loaded at startup), merges it with a catalog fetched from a
    proxy ([get_all_mcp_sources]), ranks tools with two scoring functions
    ([relevance] in [/recommend], [quick_relevance] in [/recommend-ai]) and
    forwards [/list_tools] to the proxy.

    Modelling choices:
    - strings are [String.string]; [str.lower] is ASCII lower-casing;
    - numbers ([mcprank_score] and the scores) are rationals [Q];
    - a tool dict is a record whose fields are [option]s ([None] = key absent);
    - Python exceptions are values of [pyexc], and fallible code returns [Exc];
    - the static catalog is an explicit state threaded through the handlers,
      because [get_all_mcp_sources] writes into its dicts;
    - a Python dict is an association list kept in insertion order. *)

From Stdlib Require Import String Ascii List ZArith QArith Bool Lia.
From Stdlib Require Import Sorting.Sorted Sorting.Permutation.
Import ListNotations.
Open Scope string_scope.

(** ** Python strings *)

Definition ascii_lower (c : ascii) : ascii :=
  let n := nat_of_ascii c in
  if (65 <=? n)%nat && (n <=? 90)%nat then ascii_of_nat (n + 32) else c.

(** [s.lower()] *)
Fixpoint lower (s : string) : string :=
  match s with
  | EmptyString => EmptyString
  | String c r => String (ascii_lower c) (lower r)
  end.

(** [needle in hay] for two strings: [needle] occurs as a substring of [hay]. *)
Fixpoint str_in (needle hay : string) : bool :=
  prefix needle hay ||
  match hay with
  | EmptyString => false
  | String _ r => str_in needle r
  end.

(** [c.isspace()] for the characters below 128. *)
Definition is_space (c : ascii) : bool :=
  let n := nat_of_ascii c in
  ((9 <=? n) && (n <=? 13))%nat || ((28 <=? n) && (n <=? 32))%nat.

(** [s.split()]: maximal runs of non-whitespace characters. *)
Fixpoint split_acc (s : string) (cur : string) : list string :=
  match s with
  | EmptyString => if String.eqb cur "" then [] else [cur]
  | String c r =>
      if is_space c then
        (if String.eqb cur "" then [] else [cur]) ++ split_acc r ""
      else split_acc r (cur ++ String c "")
  end.

Definition py_split (s : string) : list string := split_acc s "".

(** [" ".join(l)] *)
Definition join_space (l : list string) : string := String.concat " " l.

(** [str(n)] for an integer. *)
Fixpoint digits_of (fuel : nat) (n : Z) (acc : string) : string :=
  match fuel with
  | O => acc
  | S f =>
      let d := ascii_of_nat (48 + Z.to_nat (n mod 10)) in
      let acc' := String d acc in
      if (n <? 10)%Z then acc' else digits_of f (n / 10)%Z acc'
  end.

Definition z_str (n : Z) : string :=
  if (n <? 0)%Z then "-" ++ digits_of 64 (- n)%Z ""
  else digits_of 64 n "".

(** ** Tool descriptors and JSON values *)

(** A tool dict; [None] is an absent key. *)
Record descriptor := mkDescriptor {
  name : option string;
  description : option string;
  tags : option (list string);
  mcprank_score : option Q;
  source : option string
}.

(** [tool["source"] = s] *)
Definition set_source (s : string) (t : descriptor) : descriptor :=
  {| name := name t; description := description t; tags := tags t;
     mcprank_score := mcprank_score t; source := Some s |}.

(** [tool["mcprank_score"] = r] *)
Definition set_rank (r : Q) (t : descriptor) : descriptor :=
  {| name := name t; description := description t; tags := tags t;
     mcprank_score := Some r; source := source t |}.

(** The keys present in a tool dict, in field order. *)
Definition keys (t : descriptor) : list string :=
  (if name t then ["name"] else []) ++
  (if description t then ["description"] else []) ++
  (if tags t then ["tags"] else []) ++
  (if mcprank_score t then ["mcprank_score"] else []) ++
  (if source t then ["source"] else []).

#[local] Set Warnings "-register-all".

(** JSON values as [json.loads] / [res.json()] produce them; objects are
    tool dicts. *)
Inductive json :=
| JNull
| JBool (b : bool)
| JNum (q : Q)
| JStr (s : string)
| JArr (l : list json)
| JObj (t : descriptor).

(** ** Exceptions *)

Inductive pyexc :=
| KeyError (k : string)
| TypeError (msg : string)
| RequestException (msg : string)
| JSONDecodeError (msg : string).

(** [str(e)] *)
Definition exc_str (e : pyexc) : string :=
  match e with
  | KeyError k => "'" ++ k ++ "'"
  | TypeError m | RequestException m | JSONDecodeError m => m
  end.

Inductive Exc (A : Type) :=
| Ret (a : A)
| Raise (e : pyexc).
Arguments Ret {A} a.
Arguments Raise {A} e.

(** ** HTTP outcomes of [requests.get] *)

(** What [res.json()] does on the body: decode it or raise. *)
Inductive body_json :=
| Decoded (j : json)
| DecodeError (msg : string).

Record response := mkResponse {
  status_code : Z;
  text : string;
  body : body_json
}.

(** [requests.get(...)] either raises (connection error, timeout) or
    returns a response. *)
Inductive http_outcome :=
| GetRaised (e : pyexc)
| GetResponse (r : response).

(** [res.json()] *)
Definition res_json (r : response) : Exc json :=
  match body r with
  | Decoded j => Ret j
  | DecodeError m => Raise (JSONDecodeError m)
  end.

(** [for x in v]: the items iterated over, or the [TypeError] for values
    that are not iterable. A dict iterates over its keys. *)
Definition py_iter (v : json) : Exc (list json) :=
  match v with
  | JArr l => Ret l
  | JStr s => Ret (map (fun c => JStr (String c "")) (list_ascii_of_string s))
  | JObj t => Ret (map JStr (keys t))
  | JNull => Raise (TypeError "'NoneType' object is not iterable")
  | JBool _ => Raise (TypeError "'bool' object is not iterable")
  | JNum _ => Raise (TypeError "'float' object is not iterable")
  end.

(** ** Python dicts keyed by tool name, in insertion order *)

Definition dict := list (string * descriptor).

(** [d[k] = v]: an existing key keeps its position, a new key goes last. *)
Fixpoint dict_set (k : string) (v : descriptor) (d : dict) : dict :=
  match d with
  | [] => [(k, v)]
  | (k', v') :: r =>
      if String.eqb k k' then (k, v) :: r else (k', v') :: dict_set k v r
  end.

(** [list(d.values())] *)
Definition dict_values (d : dict) : list descriptor := map snd d.

(** [l[:k]] *)
Definition py_slice_upto {A} (l : list A) (k : Z) : list A :=
  if (0 <=? k)%Z then firstn (Z.to_nat k) l
  else firstn (Z.to_nat (Z.of_nat (List.length l) + k)) l.

(** ** [sorted(xs, key=key, reverse=True)]

    Python's sort is stable, also with [reverse=True]: the result is in
    descending key order and items with equal keys keep their order in
    [xs]. Written as an insertion sort: [x] goes before the first [y] that
    does not compare greater, i.e. [not (key x < key y)]. *)
Section SortedReverse.
Context {A : Type} (key : A -> Q).

Fixpoint insert_desc (x : A) (l : list A) : list A :=
  match l with
  | [] => [x]
  | y :: r => if Qlt_le_dec (key x) (key y) then y :: insert_desc x r
              else x :: y :: r
  end.

Fixpoint sorted_reverse (l : list A) : list A :=
  match l with
  | [] => []
  | x :: r => insert_desc x (sorted_reverse r)
  end.
End SortedReverse.

(** ** [/recommend] *)

(** [mcp.get("description", "")] and the like. *)
Definition get_description (t : descriptor) : string :=
  match description t with Some d => d | None => "" end.
Definition get_tags (t : descriptor) : list string :=
  match tags t with Some l => l | None => [] end.
Definition get_name (t : descriptor) : string :=
  match name t with Some n => n | None => "" end.
Definition get_rank (t : descriptor) : Q :=
  match mcprank_score t with Some r => r | None => 0 end.

(** The inner [relevance(mcp)] of [recommend_mcp]. *)
Definition relevance (query : string) (mcp : descriptor) : Q :=
  let score := 0 in
  let desc := lower (get_description mcp) in
  let tags := lower (join_space (get_tags mcp)) in
  let score := if str_in (lower query) desc then score + 3 else score in
  let score := if existsb (fun tag => str_in tag (lower query)) (py_split tags)
               then score + 2 else score in
  let score := if str_in (get_name mcp) query then score + 5 else score in
  score + get_rank mcp * 5.

(** The JSON object [{"query": ..., "recommendations": ...}]. *)
Record recommend_result := mkRecommend {
  rec_query : string;
  recommendations : list descriptor
}.

(** [recommend_mcp(query, top_k)] against the current static catalog
    [ranked_mcps]; it returns the catalog unchanged. *)
Definition recommend_mcp (ranked_mcps : list descriptor) (query : string)
    (top_k : Z) : list descriptor * Exc recommend_result :=
  let ranked := sorted_reverse (relevance query) ranked_mcps in
  (ranked_mcps, Ret {| rec_query := query;
                       recommendations := py_slice_upto ranked top_k |}).

(** [top_k: int = Query(5)] *)
Definition recommend_default (ranked_mcps : list descriptor) (query : string) :=
  recommend_mcp ranked_mcps query 5.

(** ** [get_all_mcp_sources] *)

(** The static loop: [tool["source"] = "static"] is written into the dict of
    the static catalog itself, then [all_tools[tool["name"]] = tool]; a
    missing name raises [KeyError] out of the function. Returns the updated
    static catalog and the dict (or the exception). *)
Fixpoint static_loop (ranked_mcps : list descriptor) (all_tools : dict)
    : list descriptor * Exc dict :=
  match ranked_mcps with
  | [] => ([], Ret all_tools)
  | tool :: rest =>
      let tool := set_source "static" tool in
      match name tool with
      | None => (tool :: rest, Raise (KeyError "name"))
      | Some n =>
          let (rest', r) := static_loop rest (dict_set n tool all_tools) in
          (tool :: rest', r)
      end
  end.

(** The proxy loop inside the [try]: each item gets [source = "proxy"] and
    is stored under its name. An item that is not a dict raises [TypeError]
    at the item assignment, a dict without a name raises [KeyError]; the
    entries stored before the failing item stay in [all_tools]. *)
Fixpoint proxy_loop (items : list json) (all_tools : dict)
    : dict * option pyexc :=
  match items with
  | [] => (all_tools, None)
  | JObj tool :: rest =>
      let tool := set_source "proxy" tool in
      match name tool with
      | None => (all_tools, Some (KeyError "name"))
      | Some n => proxy_loop rest (dict_set n tool all_tools)
      end
  | _ :: _ =>
      (all_tools, Some (TypeError "object does not support item assignment"))
  end.

(** The [try ... except Exception] block: the dict after the block (an
    exception is printed and dropped). *)
Definition proxy_block (proxy_res : http_outcome) (all_tools : dict) : dict :=
  match proxy_res with
  | GetRaised _ => all_tools
  | GetResponse r =>
      if (status_code r =? 200)%Z then
        match res_json r with
        | Raise _ => all_tools
        | Ret v =>
            match py_iter v with
            | Raise _ => all_tools
            | Ret items => fst (proxy_loop items all_tools)
            end
        end
      else all_tools
  end.

(** [get_all_mcp_sources()], given the outcome of
    [requests.get(f"{MCP_PROXY_URL}/list_tools", timeout=5)]. *)
Definition get_all_mcp_sources (ranked_mcps : list descriptor)
    (proxy_res : http_outcome) : list descriptor * Exc (list descriptor) :=
  let (st, r) := static_loop ranked_mcps [] in
  match r with
  | Raise e => (st, Raise e)
  | Ret all_tools => (st, Ret (dict_values (proxy_block proxy_res all_tools)))
  end.

(** ** [/recommend-ai] *)

(** The inner [quick_relevance(tool)] of [recommend_ai]. *)
Definition quick_relevance (task : string) (tool : descriptor) : Q :=
  let desc := lower (get_description tool) in
  let tags := lower (join_space (get_tags tool)) in
  let score := 0 in
  let score := if str_in (lower task) desc then score + 2 else score in
  let score := if existsb (fun tag => str_in tag (lower task)) (py_split tags)
               then score + 1 else score in
  score + get_rank tool * 2.

(** [sorted(all_tools, key=quick_relevance, reverse=True)[:25]] *)
Definition filtered_tools (task : string) (all_tools : list descriptor)
    : list descriptor :=
  py_slice_upto (sorted_reverse (quick_relevance task) all_tools) 25.

(** The outcome of the [requests.post] to the chat-completion endpoint:
    it raises, or answers with a status, a text and the result of
    [response.json()["choices"][0]["message"]["content"]]. *)
Inductive llm_outcome :=
| PostRaised (e : pyexc)
| PostResponse (status : Z) (body_text : string) (content : Exc string).

(** The JSON object returned: [{"task", "llm_response"}] or [{"error"}]. *)
Inductive ai_result :=
| AIResponse (task : string) (llm_response : string)
| AIError (error : string).

(** [recommend_ai(task, top_k)]. The model's answer depends on the prompt,
    which is built from [task], the candidates [filtered_tools] and
    [top_k]; [llm] gives the endpoint's outcome for them. *)
Definition recommend_ai (ranked_mcps : list descriptor)
    (proxy_res : http_outcome)
    (llm : string -> list descriptor -> Z -> llm_outcome)
    (task : string) (top_k : Z) : list descriptor * Exc ai_result :=
  let (st, r) := get_all_mcp_sources ranked_mcps proxy_res in
  match r with
  | Raise e => (st, Raise e)
  | Ret all_tools =>
      match llm task (filtered_tools task all_tools) top_k with
      | PostRaised e => (st, Raise e)
      | PostResponse status txt content =>
          if negb (status =? 200)%Z then (st, Ret (AIError txt))
          else match content with
               | Raise e => (st, Raise e)
               | Ret c => (st, Ret (AIResponse task c))
               end
      end
  end.

(** ** [/list_tools] *)

(** Its return value: the proxy's JSON, or [{"error": ...}]. *)
Inductive list_tools_result :=
| ProxyJSON (j : json)
| ProxyError (error : string).

(** [fetch_mcp_tools()], given the outcome of
    [requests.get(f"{MCP_PROXY_URL}/list_tools")]; it does not touch the
    static catalog. *)
Definition fetch_mcp_tools (ranked_mcps : list descriptor) (res : http_outcome)
    : list descriptor * Exc list_tools_result :=
  (ranked_mcps,
   match res with
   | GetRaised e => Ret (ProxyError (exc_str e))
   | GetResponse r =>
       if (status_code r =? 200)%Z then
         match res_json r with
         | Ret j => Ret (ProxyJSON j)
         | Raise e => Ret (ProxyError (exc_str e))
         end
       else Ret (ProxyError ("Proxy returned " ++ z_str (status_code r) ++ ": "
                             ++ text r))
   end).

(** ** The example catalog of the specification *)

Definition fs_tool : descriptor :=
  {| name := Some "fs-tool"; description := Some "reads files from disk";
     tags := Some ["filesystem"; "io"]; mcprank_score := Some (8 # 10);
     source := None |}.

Definition web_tool : descriptor :=
  {| name := Some "web-tool"; description := Some "fetches web pages";
     tags := Some ["http"; "web"]; mcprank_score := Some (1 # 10);
     source := None |}.

Definition example_catalog : list descriptor := [fs_tool; web_tool].

(** ** Devices used to state the properties *)

(** The catalog entries paired with their positions [k], [k+1], ... *)
Fixpoint enum_from {A} (k : nat) (l : list A) : list (nat * A) :=
  match l with
  | [] => []
  | x :: r => (k, x) :: enum_from (S k) r
  end.

(** The catalog positions in the order [sorted(..., reverse=True)] puts
    their entries: the same sort run on the entries tagged with their
    positions. *)
Definition ranked_ids {A} (key : A -> Q) (l : list A) : list nat :=
  map fst (sorted_reverse (fun p => key (snd p)) (enum_from 0 l)).

(** [j] comes before [i] in [ids]. *)
Definition precedes (j i : nat) (ids : list nat) : Prop :=
  exists l1 l2, ids = (l1 ++ j :: l2)%list /\ In i l2.

(** [xs[i] = v], or [xs] unchanged when [i] is out of range. *)
Fixpoint list_set {A} (l : list A) (i : nat) (v : A) : list A :=
  match l, i with
  | [], _ => []
  | _ :: r, O => v :: r
  | x :: r, S i' => x :: list_set r i' v
  end.

(** The order in which distinct keys first appear in [ks], after [acc]. *)
Fixpoint insert_order (ks : list string) (acc : list string) : list string :=
  match ks with
  | [] => acc
  | k :: r =>
      insert_order r (if existsb (String.eqb k) acc then acc else (acc ++ [k])%list)
  end.

(** The names carried by a list of JSON items that are all named dicts. *)
Definition json_name (j : json) : option string :=
  match j with JObj t => name t | _ => None end.

(** Every item of a proxy list is a dict with a name. *)
Definition well_formed_item (j : json) : Prop :=
  exists t n, j = JObj t /\ name t = Some n.

(** The scoring rule of [/recommend] in the words of the specification. *)
Definition relevance_formula (q : string) (d : descriptor) : Q :=
  (if str_in (lower q) (lower (get_description d)) then 3 else 0) +
  (if existsb (fun tok => str_in tok (lower q))
        (py_split (lower (join_space (get_tags d)))) then 2 else 0) +
  (if str_in (get_name d) q then 5 else 0) +
  get_rank d * 5.

(** The entry is named [n]. *)
Definition has_name (n : string) (t : descriptor) : bool :=
  match name t with Some m => String.eqb m n | None => false end.

(** The key an item of a well-formed proxy list is stored under. *)
Definition json_key (j : json) : string :=
  match j with JObj t => get_name t | _ => "" end.

(** A proxy tool not in the example catalog, and a dict without a name. *)
Definition new_tool : descriptor :=
  {| name := Some "db-tool"; description := Some "queries databases";
     tags := Some ["sql"]; mcprank_score := Some (1 # 2); source := None |}.

Definition nameless_tool : descriptor :=
  {| name := None; description := Some "no name"; tags := None;
     mcprank_score := None; source := None |}.

(** A proxy that answers 200 with the JSON array [items]. *)
Definition proxy_list (items : list json) : http_outcome :=
  GetResponse {| status_code := 200; text := ""; body := Decoded (JArr items) |}.

(** ** UI pages *)

(** [search_ui(query, top_k)]: the [query] and [results] handed to
    [search.html]; an empty query ([if query:] is false) gives no results. *)
Definition search_ui (ranked_mcps : list descriptor) (query : string) (top_k : Z)
    : list descriptor * Exc (string * list descriptor) :=
  if String.eqb query "" then (ranked_mcps, Ret (query, []))
  else
    let (st, r) := recommend_mcp ranked_mcps query top_k in
    match r with
    | Raise e => (st, Raise e)
    | Ret res => (st, Ret (query, recommendations res))
    end.

(** [result.get("error", default)] on the dict [recommend_ai] returns. *)
Definition ai_result_error (r : ai_result) : option string :=
  match r with AIError e => Some e | AIResponse _ _ => None end.

(** [ai_ui(task, top_k)]: the [task] and [response] handed to [ai.html]. *)
Definition ai_ui (ranked_mcps : list descriptor) (proxy_res : http_outcome)
    (llm : string -> list descriptor -> Z -> llm_outcome)
    (task : string) (top_k : Z) : list descriptor * Exc (string * string) :=
  if String.eqb task "" then (ranked_mcps, Ret (task, ""))
  else
    let (st, r) := recommend_ai ranked_mcps proxy_res llm task top_k in
    match r with
    | Raise e => (st, Raise e)
    | Ret result =>
        match result with
        | AIResponse _ c => (st, Ret (task, c))
        | _ => (st, Ret (task, "Error from AI: " ++
                          match ai_result_error result with
                          | Some e => e
                          | None => "Unknown error"
                          end))
        end
    end.

(** The items of a proxy list up to, not including, the first one that is
    not a dict with a name. *)
Fixpoint valid_prefix (items : list json) : list json :=
  match items with
  | JObj t :: r => match name t with Some _ => JObj t :: valid_prefix r | None => [] end
  | _ => []
  end.

(** * Properties *)

From Stdlib Require Import Lqa.
Open Scope list_scope.

(** ** The stable descending sort *)

Section SortFacts.
Context {A : Type} (key : A -> Q).

Lemma insert_desc_perm x l : Permutation (insert_desc key x l) (x :: l).
Proof.
  induction l as [|y r IH]; simpl; [auto|].
  destruct (Qlt_le_dec (key x) (key y)); [|auto].
  rewrite IH. constructor.
Qed.

Lemma sorted_reverse_perm l : Permutation (sorted_reverse key l) l.
Proof.
  induction l as [|x r IH]; simpl; [auto|].
  rewrite insert_desc_perm. auto.
Qed.

Lemma sorted_reverse_length l : length (sorted_reverse key l) = length l.
Proof. apply Permutation_length, sorted_reverse_perm. Qed.

Definition desc (a b : A) : Prop := (key b <= key a)%Q.

Lemma insert_desc_sorted x l :
  Sorted desc l -> Sorted desc (insert_desc key x l).
Proof.
  induction 1 as [|y r Hs IH Hh]; simpl; [auto|].
  destruct (Qlt_le_dec (key x) (key y)) as [Hlt|Hle].
  - constructor; [exact IH|].
    destruct r as [|z r']; simpl.
    + constructor. unfold desc. lra.
    + inversion Hh; subst.
      destruct (Qlt_le_dec (key x) (key z)); constructor; unfold desc in *; lra.
  - constructor; [constructor; auto|]. constructor. exact Hle.
Qed.

Lemma sorted_reverse_sorted l : Sorted desc (sorted_reverse key l).
Proof.
  induction l; simpl; [constructor|]. apply insert_desc_sorted; auto.
Qed.

Lemma sorted_reverse_strongly l : StronglySorted desc (sorted_reverse key l).
Proof.
  apply Sorted_StronglySorted; [|apply sorted_reverse_sorted].
  intros a b c H1 H2. unfold desc in *. lra.
Qed.

(** Stability: the items of one key value keep their relative order. *)
Lemma insert_desc_filter v x l :
  filter (fun y => Qeq_bool (key y) v) (insert_desc key x l) =
  filter (fun y => Qeq_bool (key y) v) (x :: l).
Proof.
  induction l as [|y r IH]; simpl; [reflexivity|].
  destruct (Qlt_le_dec (key x) (key y)) as [Hlt|Hle]; simpl.
  - rewrite IH. simpl.
    destruct (Qeq_bool (key x) v) eqn:Ex; [|reflexivity].
    destruct (Qeq_bool (key y) v) eqn:Ey; [|reflexivity].
    apply Qeq_bool_eq in Ex, Ey. lra.
  - reflexivity.
Qed.

Lemma sorted_reverse_stable v l :
  filter (fun y => Qeq_bool (key y) v) (sorted_reverse key l) =
  filter (fun y => Qeq_bool (key y) v) l.
Proof.
  induction l as [|x r IH]; simpl; [reflexivity|].
  rewrite insert_desc_filter. simpl. rewrite IH. reflexivity.
Qed.

(** Sorting commutes with relabelling the items. *)
Lemma sorted_reverse_map {B} (f : B -> A) l :
  sorted_reverse key (map f l) =
  map f (sorted_reverse (fun b => key (f b)) l).
Proof.
  induction l as [|x r IH]; simpl; [reflexivity|].
  rewrite IH. generalize (sorted_reverse (fun b => key (f b)) r).
  induction l as [|y s IHs]; simpl; [reflexivity|].
  destruct (Qlt_le_dec (key (f x)) (key (f y))); simpl; congruence.
Qed.
End SortFacts.

(** ** Order of the positions after sorting *)

Lemma Forall_perm {B} (P : B -> Prop) l1 l2 :
  Permutation l1 l2 -> Forall P l1 -> Forall P l2.
Proof.
  rewrite !Forall_forall. intros Hp H x Hx.
  apply H. eapply Permutation_in; [symmetry; exact Hp|exact Hx].
Qed.

Section RankFacts.
Context {A : Type} (key : A -> Q).

(** The order the stable descending sort puts positioned items in:
    higher key first, the earlier position first on equal keys. *)
Definition lex_desc (p q : nat * A) : Prop :=
  (key (snd q) < key (snd p))%Q \/
  ((key (snd p) == key (snd q))%Q /\ (fst p < fst q)%nat).

Lemma lex_desc_trans p q r : lex_desc p q -> lex_desc q r -> lex_desc p r.
Proof.
  unfold lex_desc. intros [H1|[H1 H1']] [H2|[H2 H2']].
  - left. lra.
  - left. lra.
  - left. lra.
  - right. split; [lra|lia].
Qed.

Lemma lex_desc_irrefl p : ~ lex_desc p p.
Proof. unfold lex_desc. intros [H|[_ H]]; [lra|lia]. Qed.

Lemma lex_desc_asym p q : lex_desc p q -> ~ lex_desc q p.
Proof.
  intros H1 H2. apply (lex_desc_irrefl p). eapply lex_desc_trans; eauto.
Qed.

Lemma insert_desc_lex x l :
  StronglySorted lex_desc l ->
  Forall (fun y => (fst x < fst y)%nat) l ->
  StronglySorted lex_desc (insert_desc (fun p => key (snd p)) x l).
Proof.
  induction l as [|y r IH]; intros Hs Hf; simpl.
  - repeat constructor.
  - apply StronglySorted_inv in Hs as [Hr Hy].
    inversion Hf as [|? ? Hxy Hfr]; subst.
    destruct (Qlt_le_dec (key (snd x)) (key (snd y))) as [Hlt|Hle].
    + constructor; [apply IH; auto|].
      apply (Forall_perm _ (x :: r)); [symmetry; apply insert_desc_perm|].
      constructor; [left; exact Hlt|exact Hy].
    + assert (Hxy' : lex_desc x y).
      { unfold lex_desc.
        destruct (Qlt_le_dec (key (snd y)) (key (snd x))); [left; auto|].
        right. split; [lra|exact Hxy]. }
      constructor; [constructor; auto|].
      constructor; [exact Hxy'|].
      eapply Forall_impl; [|exact Hy]. intros z Hz.
      eapply lex_desc_trans; eauto.
Qed.

Lemma sorted_reverse_lex l :
  StronglySorted (fun p q => (fst p < fst q)%nat) l ->
  StronglySorted lex_desc (sorted_reverse (fun p => key (snd p)) l).
Proof.
  induction l as [|x r IH]; intros Hs; simpl; [constructor|].
  apply StronglySorted_inv in Hs as [Hr Hx].
  apply insert_desc_lex; [auto|].
  apply (Forall_perm _ r); [symmetry; apply sorted_reverse_perm|exact Hx].
Qed.
End RankFacts.

Lemma enum_from_ge {A} k (l : list A) :
  Forall (fun q => (k <= fst q)%nat) (enum_from k l).
Proof.
  revert k. induction l as [|x r IH]; intros k; simpl; constructor; simpl; [lia|].
  eapply Forall_impl; [|apply IH]. simpl. intros; lia.
Qed.

Lemma enum_from_increasing {A} k (l : list A) :
  StronglySorted (fun p q => (fst p < fst q)%nat) (enum_from k l).
Proof.
  revert k. induction l as [|x r IH]; intros k; simpl; constructor; auto.
  eapply Forall_impl; [|apply (enum_from_ge (S k))]. simpl. intros; lia.
Qed.

Lemma in_enum_from {A} k (l : list A) p :
  In p (enum_from k l) <-> (k <= fst p)%nat /\ nth_error l (fst p - k) = Some (snd p).
Proof.
  revert k. induction l as [|x r IH]; intros k; simpl.
  - split; [tauto|]. intros [_ H]. destruct (fst p - k)%nat; discriminate.
  - rewrite IH. destruct p as [j y]; simpl. split.
    + intros [H|[H1 H2]].
      * inversion H; subst. rewrite Nat.sub_diag. simpl. split; auto.
      * split; [lia|]. replace (j - k)%nat with (S (j - S k)) by lia. exact H2.
    + intros [H1 H2].
      destruct (Nat.eq_dec j k) as [->|Hne].
      * left. rewrite Nat.sub_diag in H2. simpl in H2. inversion H2; auto.
      * right. split; [lia|]. replace (j - k)%nat with (S (j - S k)) in H2 by lia.
        exact H2.
Qed.

Lemma map_snd_enum_from {A} k (l : list A) : map snd (enum_from k l) = l.
Proof. revert k. induction l; simpl; intros; f_equal; auto. Qed.

Lemma precedes_related {B} (R : B -> B -> Prop) (f : B -> nat) l j i :
  StronglySorted R l -> precedes j i (map f l) ->
  exists x y, In x l /\ In y l /\ f x = j /\ f y = i /\ R x y.
Proof.
  intros Hs [l1 [l2 [Heq Hin]]]. revert l1 Heq.
  induction l as [|z r IH]; intros l1 Heq; simpl in Heq.
  - destruct l1; discriminate.
  - apply StronglySorted_inv in Hs as [Hr Hz].
    destruct l1 as [|w l1]; simpl in Heq; inversion Heq; subst.
    + apply in_map_iff in Hin as [y [Hy Hiny]].
      exists z, y. repeat split; auto; [left; auto|right; auto|].
      rewrite Forall_forall in Hz. auto.
    + destruct (IH Hr l1 H1) as [x [y [? [? ?]]]].
      exists x, y. repeat split; simpl; tauto.
Qed.

Lemma related_precedes {B} (R : B -> B -> Prop) (f : B -> nat) l x y :
  (forall a, ~ R a a) -> (forall a b, R a b -> ~ R b a) ->
  StronglySorted R l -> In x l -> In y l -> R x y ->
  precedes (f x) (f y) (map f l).
Proof.
  intros Hirr Hasym Hs Hx Hy Hxy. induction l as [|z r IH]; [destruct Hx|].
  apply StronglySorted_inv in Hs as [Hr Hz]. rewrite Forall_forall in Hz.
  destruct Hx as [Ezx|Hx].
  - subst z. destruct Hy as [Exy|Hy]; [subst y; exfalso; exact (Hirr x Hxy)|].
    exists [], (map f r). split; [reflexivity|]. apply in_map; auto.
  - destruct Hy as [Ezy|Hy]; [subst z; exfalso; exact (Hasym _ _ Hxy (Hz x Hx))|].
    destruct (IH Hr Hx Hy) as [l1 [l2 [Heq Hin]]].
    exists (f z :: l1), l2. simpl. rewrite Heq. auto.
Qed.

Lemma sorted_reverse_enum {A} (key : A -> Q) (l : list A) :
  map snd (sorted_reverse (fun p => key (snd p)) (enum_from 0 l)) =
  sorted_reverse key l.
Proof.
  rewrite <- (sorted_reverse_map key snd). rewrite map_snd_enum_from. reflexivity.
Qed.

Lemma nth_error_list_set_same {A} (l : list A) i v :
  (i < length l)%nat -> nth_error (list_set l i v) i = Some v.
Proof.
  revert i. induction l as [|x r IH]; intros [|i] H; simpl in *; try lia; auto.
  apply IH. lia.
Qed.

Lemma nth_error_list_set_other {A} (l : list A) i j v :
  i <> j -> nth_error (list_set l i v) j = nth_error l j.
Proof.
  revert i j. induction l as [|x r IH]; intros [|i] [|j] H; simpl; auto;
    try congruence.
Qed.

(** ** Scores *)

Lemma relevance_eq_formula q d : relevance q d == relevance_formula q d.
Proof.
  unfold relevance, relevance_formula.
  destruct (str_in (lower q) _), (existsb _ _), (str_in (get_name d) q); lra.
Qed.

Lemma relevance_set_rank q d r :
  relevance q (set_rank r d) == relevance q d - get_rank d * 5 + r * 5.
Proof.
  rewrite !relevance_eq_formula. unfold relevance_formula.
  change (get_description (set_rank r d)) with (get_description d).
  change (get_tags (set_rank r d)) with (get_tags d).
  change (get_name (set_rank r d)) with (get_name d).
  change (get_rank (set_rank r d)) with r.
  destruct (str_in (lower q) _), (existsb _ _), (str_in (get_name d) q); lra.
Qed.

(** ** [/recommend] *)

(** C1 (amended). [/recommend] returns the first [top_k] entries of the
    catalog sorted by descending [relevance], stably: exactly
    [min(top_k, |C|)] of them when [top_k >= 0] (5 by default), and by
    Python's slice rule all but the last [-top_k] of them when
    [top_k < 0]. *)
Theorem recommend_mcp_top_k (ranked_mcps : list descriptor) (query : string)
    (top_k : Z) :
  recommend_default ranked_mcps query = recommend_mcp ranked_mcps query 5 /\
  exists r,
    snd (recommend_mcp ranked_mcps query top_k) = Ret r /\
    rec_query r = query /\
    recommendations r =
      firstn (if (0 <=? top_k)%Z then Z.to_nat top_k
              else Z.to_nat (Z.of_nat (length ranked_mcps) + top_k))
        (sorted_reverse (relevance query) ranked_mcps) /\
    Z.of_nat (length (recommendations r)) =
      (if (0 <=? top_k)%Z then Z.min top_k (Z.of_nat (length ranked_mcps))
       else Z.max 0 (Z.of_nat (length ranked_mcps) + top_k)) /\
    Sorted (desc (relevance query)) (sorted_reverse (relevance query) ranked_mcps) /\
    Permutation (sorted_reverse (relevance query) ranked_mcps) ranked_mcps /\
    (forall v, filter (fun d => Qeq_bool (relevance query d) v)
                 (sorted_reverse (relevance query) ranked_mcps) =
               filter (fun d => Qeq_bool (relevance query d) v) ranked_mcps).
Proof.
  split; [reflexivity|].
  eexists. split; [reflexivity|]. simpl. split; [reflexivity|].
  unfold py_slice_upto. rewrite sorted_reverse_length.
  split; [destruct (0 <=? top_k)%Z; reflexivity|].
  split; [|split; [apply sorted_reverse_sorted|split;
                   [apply sorted_reverse_perm|intros v; apply (sorted_reverse_stable (relevance query) v)]]].
  destruct (0 <=? top_k)%Z eqn:E; rewrite length_firstn, sorted_reverse_length; [apply Z.leb_le in E|apply Z.leb_gt in E]; lia.
Qed.

(** C1 (as stated, refuted). With [top_k = -1] on the two-tool example
    catalog, [/recommend] returns one entry, more than
    [min(-1, 2) = -1]. *)
Lemma recommend_mcp_negative_top_k :
  ~ (forall (C : list descriptor) q K r,
       snd (recommend_mcp C q K) = Ret r ->
       (Z.of_nat (length (recommendations r)) <= Z.min K (Z.of_nat (length C)))%Z).
Proof.
  intros H.
  specialize (H example_catalog "read files" (-1)%Z _ eq_refl).
  vm_compute in H. apply H. reflexivity.
Qed.

(** C2. The [/recommend] score is the sum of +3 (lower-cased query inside
    the lower-cased description), +2 (a whitespace token of the lower-cased
    joined tags inside the lower-cased query), +5 (the name, as is, inside
    the query, as is) and [mcprank_score * 5]; on the example catalog,
    [recommend("read files", top_k=1)] returns [fs-tool], scored 4.0
    against 0.5 for [web-tool]. *)
Theorem relevance_sum_and_example :
  (forall q d, relevance q d == relevance_formula q d) /\
  relevance "read files" fs_tool == 4 /\
  relevance "read files" web_tool == 1 # 2 /\
  recommend_mcp example_catalog "read files" 1 =
    (example_catalog, Ret {| rec_query := "read files";
                             recommendations := [fs_tool] |}).
Proof.
  split; [exact relevance_eq_formula|].
  split; [vm_compute; reflexivity|].
  split; [vm_compute; reflexivity|].
  vm_compute. reflexivity.
Qed.

(** C9. A tool without a name, or with the empty name, always gets the +5
    name bonus: the empty string is inside every query. *)
Theorem relevance_empty_name_bonus (q : string) (d : descriptor) :
  (name d = None \/ name d = Some "") ->
  relevance q d ==
    (if str_in (lower q) (lower (get_description d)) then 3 else 0) +
    (if existsb (fun tok => str_in tok (lower q))
          (py_split (lower (join_space (get_tags d)))) then 2 else 0) +
    5 + get_rank d * 5.
Proof.
  intros Hn.
  assert (Hg : get_name d = "") by (unfold get_name; destruct Hn as [-> | ->]; reflexivity).
  rewrite relevance_eq_formula. unfold relevance_formula. rewrite Hg.
  assert (He : str_in "" q = true) by (destruct q; reflexivity).
  rewrite He. reflexivity.
Qed.

Lemma relevance_empty_name_bonus_witness :
  name {| name := None; description := None; tags := None;
          mcprank_score := None; source := None |} = None /\
  relevance "zzz" {| name := None; description := None; tags := None;
                     mcprank_score := None; source := None |} == 5.
Proof.
  split; [reflexivity|].
  pose proof (relevance_empty_name_bonus "zzz"
    {| name := None; description := None; tags := None;
       mcprank_score := None; source := None |} (or_introl eq_refl)) as H.
  vm_compute in H. vm_compute. exact H.
Defined.

(** C7. Raising the [mcprank_score] of the entry [d] at position [i] of the
    catalog, everything else fixed, does not lower its score, and every
    entry ranked ahead of it afterwards was ranked ahead of it before (the
    ranking is the one [sorted(..., reverse=True)] gives, see
    [sorted_reverse_enum]). *)
Theorem recommend_rank_monotone (ranked_mcps : list descriptor)
    (query : string) (i : nat) (d : descriptor) (r : Q) :
  nth_error ranked_mcps i = Some d -> get_rank d <= r ->
  relevance query d <= relevance query (set_rank r d) /\
  (forall j,
     precedes j i (ranked_ids (relevance query)
                     (list_set ranked_mcps i (set_rank r d))) ->
     precedes j i (ranked_ids (relevance query) ranked_mcps)).
Proof.
  intros Hd Hr.
  assert (Hmono : relevance query d <= relevance query (set_rank r d)).
  { rewrite relevance_set_rank. lra. }
  split; [exact Hmono|].
  intros j Hp.
  set (cat' := list_set ranked_mcps i (set_rank r d)) in *.
  assert (Hlen : (i < length ranked_mcps)%nat).
  { apply nth_error_Some. congruence. }
  unfold ranked_ids in Hp.
  destruct (precedes_related (lex_desc (relevance query)) fst _ j i
              (sorted_reverse_lex _ _ (enum_from_increasing 0 cat')) Hp)
    as [x [y [Hx [Hy [Hxj [Hyi Hxy]]]]]].
  apply (Permutation_in _ (sorted_reverse_perm _ _)) in Hx, Hy.
  apply in_enum_from in Hx as [_ Hx], Hy as [_ Hy].
  rewrite Nat.sub_0_r in Hx, Hy.
  rewrite Hyi in Hy. unfold cat' in Hy.
  rewrite nth_error_list_set_same in Hy by exact Hlen.
  injection Hy as Hy.
  assert (Hji : j <> i).
  { intros Eji. rewrite Hxj, Eji in Hx. unfold cat' in Hx.
    rewrite nth_error_list_set_same in Hx by exact Hlen.
    injection Hx as Hx.
    assert (Exy : x = y).
    { destruct x, y. simpl in *. congruence. }
    rewrite Exy in Hxy. exact (lex_desc_irrefl _ _ Hxy). }
  rewrite Hxj in Hx. unfold cat' in Hx.
  rewrite nth_error_list_set_other in Hx by congruence.
  assert (Hold : lex_desc (relevance query) (j, snd x) (i, d)).
  { unfold lex_desc in *. simpl. rewrite <- Hy, Hxj, Hyi in Hxy.
    destruct Hxy as [Hlt|[Heq Hlt]]; [left; lra|].
    destruct (Qlt_le_dec (relevance query d) (relevance query (set_rank r d))).
    - left. lra.
    - right. split; [lra|exact Hlt]. }
  unfold ranked_ids.
  change (precedes (fst (j, snd x)) (fst (i, d))
            (map fst (sorted_reverse (fun p => relevance query (snd p))
                        (enum_from 0 ranked_mcps)))).
  apply related_precedes with (R := lex_desc (relevance query)).
  - apply lex_desc_irrefl.
  - apply lex_desc_asym.
  - apply sorted_reverse_lex, enum_from_increasing.
  - eapply Permutation_in; [symmetry; apply sorted_reverse_perm|].
    apply in_enum_from. simpl. rewrite Nat.sub_0_r. split; [lia|exact Hx].
  - eapply Permutation_in; [symmetry; apply sorted_reverse_perm|].
    apply in_enum_from. simpl. rewrite Nat.sub_0_r. split; [lia|exact Hd].
  - exact Hold.
Qed.

Lemma recommend_rank_monotone_witness :
  nth_error example_catalog 1 = Some web_tool /\ get_rank web_tool <= 1 /\
  (relevance "read files" web_tool <= relevance "read files" (set_rank 1 web_tool) /\
   (forall j,
      precedes j 1 (ranked_ids (relevance "read files")
                      (list_set example_catalog 1 (set_rank 1 web_tool))) ->
      precedes j 1 (ranked_ids (relevance "read files") example_catalog))).
Proof.
  split; [reflexivity|]. split; [vm_compute; discriminate|].
  apply recommend_rank_monotone; [reflexivity|vm_compute; discriminate].
Defined.

(** ** [/recommend-ai] pre-filter *)

Lemma StronglySorted_app_split {B} (R : B -> B -> Prop) l1 l2 :
  StronglySorted R (l1 ++ l2) ->
  StronglySorted R l1 /\ (forall x y, In x l1 -> In y l2 -> R x y).
Proof.
  induction l1 as [|a r IH]; simpl; intros Hs; [split; [constructor|tauto]|].
  apply StronglySorted_inv in Hs as [Hs Ha]. rewrite Forall_forall in Ha.
  destruct (IH Hs) as [H1 H2]. split.
  - constructor; [exact H1|]. rewrite Forall_forall. intros x Hx.
    apply Ha, in_or_app. left; exact Hx.
  - intros x y [<-|Hx] Hy; [apply Ha, in_or_app; right; exact Hy|auto].
Qed.

(** C6. The candidates handed to the model are at most 25 entries of the
    aggregated catalog: the first 25 of the catalog stably sorted by
    descending [quick_relevance], none scored below an entry left out;
    [quick_relevance] adds +2 (task inside the description), +1 (a tag
    token inside the task) and [mcprank_score * 2]. *)
Theorem filtered_tools_top25 (task : string) (all_tools : list descriptor) :
  filtered_tools task all_tools =
    firstn 25 (sorted_reverse (quick_relevance task) all_tools) /\
  (length (filtered_tools task all_tools) <= 25)%nat /\
  incl (filtered_tools task all_tools) all_tools /\
  Sorted (desc (quick_relevance task)) (filtered_tools task all_tools) /\
  (forall y x, In y (filtered_tools task all_tools) ->
     In x (skipn 25 (sorted_reverse (quick_relevance task) all_tools)) ->
     quick_relevance task x <= quick_relevance task y) /\
  (forall t, quick_relevance task t ==
     (if str_in (lower task) (lower (get_description t)) then 2 else 0) +
     (if existsb (fun tok => str_in tok (lower task))
           (py_split (lower (join_space (get_tags t)))) then 1 else 0) +
     get_rank t * 2).
Proof.
  assert (Hf : filtered_tools task all_tools =
               firstn 25 (sorted_reverse (quick_relevance task) all_tools))
    by reflexivity.
  pose proof (sorted_reverse_strongly (quick_relevance task) all_tools) as Hs.
  rewrite <- (firstn_skipn 25) in Hs.
  apply StronglySorted_app_split in Hs as [Hs1 Hs2].
  rewrite Hf. split; [reflexivity|]. split; [apply firstn_le_length|].
  split; [|split; [apply StronglySorted_Sorted; exact Hs1|split]].
  - intros x Hx. eapply Permutation_in; [apply sorted_reverse_perm|].
    rewrite <- (firstn_skipn 25). apply in_or_app. left; exact Hx.
  - intros y x Hy Hx. exact (Hs2 y x Hy Hx).
  - intros t. unfold quick_relevance.
    destruct (str_in _ _), (existsb _ _); lra.
Qed.

(** ** [/list_tools] *)

Lemma prefix_app (n b : string) : prefix n (n ++ b)%string = true.
Proof.
  induction n as [|c n IH]; simpl; [destruct b; reflexivity|].
  destruct (ascii_dec c c) as [_|H]; [exact IH|congruence].
Qed.

Lemma string_app_assoc (a b c : string) : ((a ++ b) ++ c = a ++ (b ++ c))%string.
Proof. induction a as [|x a IH]; simpl; congruence. Qed.

Lemma string_app_nil_r (a : string) : (a ++ "")%string = a.
Proof. induction a as [|x a IH]; simpl; congruence. Qed.

Lemma str_in_prefix (n h : string) : prefix n h = true -> str_in n h = true.
Proof.
  intros H. destruct h as [|c h];
    [change (prefix n "" || false = true)|change (prefix n (String c h) || str_in n h = true)];
    rewrite H; reflexivity.
Qed.

Lemma str_in_app_r (n a h : string) : str_in n h = true -> str_in n (a ++ h)%string = true.
Proof.
  intros H. induction a as [|c a IH]; simpl; [exact H|].
  rewrite IH. apply orb_true_r.
Qed.

Lemma str_in_middle (n a b : string) : str_in n (a ++ n ++ b)%string = true.
Proof.
  apply str_in_app_r. destruct n as [|c n]; [destruct b; reflexivity|].
  apply str_in_prefix, prefix_app.
Qed.

(** C8. [/list_tools] never raises and leaves the catalog alone: on a 200
    response it returns the decoded body unchanged (or, if the body does
    not decode, the error's text), on another status an error whose
    message contains the status code and the body text, and when the
    request raises an error carrying [str(e)]. *)
Theorem fetch_mcp_tools_returns (ranked_mcps : list descriptor)
    (res : http_outcome) :
  fst (fetch_mcp_tools ranked_mcps res) = ranked_mcps /\
  exists v, snd (fetch_mcp_tools ranked_mcps res) = Ret v /\
  match res with
  | GetRaised e => v = ProxyError (exc_str e)
  | GetResponse r =>
      if (status_code r =? 200)%Z then
        (forall j, body r = Decoded j -> v = ProxyJSON j) /\
        (forall m, body r = DecodeError m ->
                   v = ProxyError (exc_str (JSONDecodeError m)))
      else exists msg, v = ProxyError msg /\
             str_in (z_str (status_code r)) msg = true /\
             str_in (text r) msg = true
  end.
Proof.
  split; [reflexivity|]. destruct res as [e|r]; cbn [fetch_mcp_tools snd].
  - eexists. split; reflexivity.
  - destruct (status_code r =? 200)%Z.
    + unfold res_json. destruct (body r) as [j|m]; eexists; (split; [reflexivity|]);
        split; intros ? H; inversion H; reflexivity.
    + eexists. split; [reflexivity|]. eexists. split; [reflexivity|]. split.
      * apply str_in_middle.
      * rewrite <- (string_app_nil_r (text r)) at 2.
        rewrite <- (string_app_assoc (z_str (status_code r)) ": ").
        rewrite <- string_app_assoc. apply str_in_middle.
Qed.

(** ** The aggregator *)

Definition dict_ok (d : dict) : Prop :=
  NoDup (map fst d) /\ Forall (fun kv => name (snd kv) = Some (fst kv)) d.

Lemma dict_set_keys k v d :
  map fst (dict_set k v d) =
  if existsb (String.eqb k) (map fst d) then map fst d else map fst d ++ [k].
Proof.
  induction d as [|[k' v'] r IH]; simpl; [reflexivity|].
  destruct (String.eqb k k') eqn:E; simpl.
  - apply String.eqb_eq in E. subst. reflexivity.
  - rewrite IH. destruct (existsb _ _); reflexivity.
Qed.

Lemma dict_set_in k v d : In (k, v) (dict_set k v d).
Proof.
  induction d as [|[k' v'] r IH]; simpl; [auto|].
  destruct (String.eqb k k'); simpl; auto.
Qed.

Lemma dict_set_in_other k v d n t :
  n <> k -> In (n, t) d -> In (n, t) (dict_set k v d).
Proof.
  intros Hne. induction d as [|[k' v'] r IH]; simpl; [tauto|].
  destruct (String.eqb k k') eqn:E; simpl.
  - apply String.eqb_eq in E. subst. intros [H|H]; [inversion H; congruence|auto].
  - intros [H|H]; auto.
Qed.

Lemma dict_set_ok k v d :
  name v = Some k -> dict_ok d -> dict_ok (dict_set k v d).
Proof.
  intros Hv [Hnd Hf]. induction d as [|[k' v'] r IH]; simpl.
  - split; [constructor; [simpl; tauto|constructor]|constructor; auto].
  - inversion Hnd as [|? ? Hk' Hnd']; subst.
    inversion Hf as [|? ? Hv' Hf']; subst.
    destruct (String.eqb k k') eqn:E.
    + apply String.eqb_eq in E. subst. split; [constructor; auto|constructor; auto].
    + destruct (IH Hnd' Hf') as [Hnd2 Hf2]. split.
      * simpl. constructor; [|exact Hnd2].
        rewrite dict_set_keys. destruct (existsb _ _); [exact Hk'|].
        rewrite in_app_iff. simpl. intros [H|[H|H]]; [tauto| |tauto].
        subst. rewrite String.eqb_refl in E. discriminate.
      * constructor; auto.
Qed.

Definition named (t : descriptor) : Prop := name t <> None.

Lemma static_loop_ok st d d' :
  dict_ok d -> snd (static_loop st d) = Ret d' -> dict_ok d'.
Proof.
  revert d. induction st as [|t rest IH]; intros d Hd H; simpl in H.
  - inversion H; subst; exact Hd.
  - destruct (name t) as [n|] eqn:En; [|discriminate].
    destruct (static_loop rest (dict_set n (set_source "static" t) d)) as [s r] eqn:E.
    simpl in H. subst r.
    eapply IH; [|rewrite E; reflexivity].
    apply dict_set_ok; [exact En|exact Hd].
Qed.

Lemma static_loop_state st d :
  exists m, fst (static_loop st d) =
            map (set_source "static") (firstn m st) ++ skipn m st.
Proof.
  revert d. induction st as [|t rest IH]; intros d; simpl.
  - exists 0%nat. reflexivity.
  - destruct (name t) as [n|] eqn:En.
    + destruct (static_loop rest (dict_set n (set_source "static" t) d)) as [s r] eqn:E.
      destruct (IH (dict_set n (set_source "static" t) d)) as [m Hm].
      rewrite E in Hm. simpl in Hm. exists (S m). simpl. rewrite Hm. reflexivity.
    + exists 1%nat. reflexivity.
Qed.

Lemma static_loop_ret_named st d d' :
  snd (static_loop st d) = Ret d' -> Forall named st.
Proof.
  revert d. induction st as [|t rest IH]; intros d H; simpl in H; [constructor|].
  destruct (name t) as [n|] eqn:En; [|discriminate].
  destruct (static_loop rest (dict_set n (set_source "static" t) d)) as [s r] eqn:E.
  simpl in H. constructor; [unfold named; congruence|].
  apply (IH (dict_set n (set_source "static" t) d)). rewrite E. exact H.
Qed.

Lemma static_loop_named st d :
  Forall named st ->
  fst (static_loop st d) = map (set_source "static") st /\
  exists d', snd (static_loop st d) = Ret d' /\
             map fst d' = insert_order (map get_name st) (map fst d).
Proof.
  revert d. induction st as [|t rest IH]; intros d Hn; simpl.
  - split; [reflexivity|]. eexists; split; reflexivity.
  - inversion Hn as [|? ? Ht Hrest]; subst.
    destruct (name t) as [n|] eqn:En; [|congruence].
    destruct (IH (dict_set n (set_source "static" t) d) Hrest) as [Hs [d' [Hr Hk]]].
    destruct (static_loop rest (dict_set n (set_source "static" t) d)) as [s r].
    simpl in *. subst. split; [reflexivity|].
    exists d'. split; [reflexivity|]. rewrite Hk, dict_set_keys.
    unfold get_name; rewrite ?En; reflexivity.
Qed.

Lemma proxy_loop_ok items d : dict_ok d -> dict_ok (fst (proxy_loop items d)).
Proof.
  revert d. induction items as [|j rest IH]; intros d Hd; simpl; [exact Hd|].
  destruct j as [| | | | |t]; simpl; try exact Hd.
  destruct (name t) as [n|] eqn:En; simpl; [|exact Hd].
  apply IH, dict_set_ok; [exact En|exact Hd].
Qed.

Lemma proxy_loop_keys items d :
  Forall well_formed_item items ->
  map fst (fst (proxy_loop items d)) = insert_order (map json_key items) (map fst d).
Proof.
  revert d. induction items as [|j rest IH]; intros d Hw; simpl; [reflexivity|].
  inversion Hw as [|? ? [t [n [-> Hn]]] Hrest]; subst. simpl. rewrite Hn.
  rewrite IH by exact Hrest. rewrite dict_set_keys.
  unfold get_name. rewrite Hn. reflexivity.
Qed.

Lemma proxy_loop_tagged items d n :
  Forall well_formed_item items ->
  (In n (map json_key items) \/ exists t, In (n, t) d /\ source t = Some "proxy") ->
  exists t, In (n, t) (fst (proxy_loop items d)) /\ source t = Some "proxy".
Proof.
  revert d. induction items as [|j rest IH]; intros d Hw Hin; simpl.
  - destruct Hin as [[]|H]; exact H.
  - inversion Hw as [|? ? [t [m [-> Hm]]] Hrest]; subst. simpl. rewrite Hm.
    apply IH; [exact Hrest|].
    destruct (String.eqb n m) eqn:E.
    + apply String.eqb_eq in E. subst. right.
      exists (set_source "proxy" t). split; [apply dict_set_in|reflexivity].
    + apply String.eqb_neq in E. simpl in Hin. unfold get_name in Hin. rewrite Hm in Hin.
      destruct Hin as [[H|H]|[t' [Ht' Hs']]]; [congruence|left; exact H|].
      right. exists t'. split; [apply dict_set_in_other; auto|exact Hs'].
Qed.

Lemma dict_ok_filter d n t :
  dict_ok d -> In (n, t) d -> filter (has_name n) (dict_values d) = [t].
Proof.
  intros [Hnd Hf]. unfold dict_values.
  induction d as [|[k v] r IH]; simpl; [tauto|].
  inversion Hnd as [|? ? Hk Hnd']; subst.
  inversion Hf as [|? ? Hv Hf']; subst. simpl in Hv.
  unfold has_name at 1. rewrite Hv.
  intros [H|H].
  - inversion H; subst. rewrite String.eqb_refl. f_equal.
    clear IH Hnd Hnd' Hf Hv.
    induction r as [|[k' v'] r' IHr]; simpl; [reflexivity|].
    inversion Hf' as [|? ? Hv' Hf'']; subst. simpl in Hv'.
    unfold has_name at 1. rewrite Hv'.
    destruct (String.eqb k' n) eqn:E.
    + apply String.eqb_eq in E. subst. simpl in Hk. tauto.
    + apply IHr; [simpl in Hk; tauto|exact Hf''].
  - destruct (String.eqb k n) eqn:E.
    + apply String.eqb_eq in E. subst. exfalso. apply Hk.
      apply (in_map fst) in H. exact H.
    + apply IH; auto.
Qed.

Lemma dict_ok_names d : dict_ok d -> NoDup (map name (dict_values d)).
Proof.
  intros [Hnd Hf]. unfold dict_values. rewrite map_map.
  assert (E : map (fun x => name (snd x)) d = map Some (map fst d)).
  { rewrite map_map. apply map_ext_in. intros a Ha.
    rewrite Forall_forall in Hf. apply Hf, Ha. }
  rewrite E. clear E Hf. induction Hnd as [|k ks Hk Hks IH]; simpl; constructor; auto.
  intros H. apply in_map_iff in H as [k' [Hk' Hin]]. inversion Hk'; subst. tauto.
Qed.

Lemma get_all_mcp_sources_eq st o :
  get_all_mcp_sources st o =
  (fst (static_loop st []),
   match snd (static_loop st []) with
   | Raise e => Raise e
   | Ret d => Ret (dict_values (proxy_block o d))
   end).
Proof.
  unfold get_all_mcp_sources. destruct (static_loop st []) as [s [d|e]]; reflexivity.
Qed.

Lemma proxy_block_ok o d : dict_ok d -> dict_ok (proxy_block o d).
Proof.
  intros Hd. destruct o as [e|r]; simpl; [exact Hd|].
  destruct (status_code r =? 200)%Z; [|exact Hd].
  destruct (res_json r) as [v|e]; [|exact Hd].
  destruct (py_iter v) as [items|e]; [|exact Hd].
  apply proxy_loop_ok, Hd.
Qed.

Lemma dict_ok_nil : dict_ok [].
Proof. split; constructor. Qed.

Lemma dict_ok_names_keys d : dict_ok d -> map name (dict_values d) = map Some (map fst d).
Proof.
  intros [_ Hf]. unfold dict_values. rewrite !map_map. apply map_ext_in.
  intros a Ha. rewrite Forall_forall in Hf. apply Hf, Ha.
Qed.

Lemma existsb_eqb_in k l : existsb (String.eqb k) l = true <-> In k l.
Proof.
  rewrite existsb_exists. split.
  - intros [x [Hx E]]. apply String.eqb_eq in E. subst. exact Hx.
  - intros H. exists k. split; [exact H|apply String.eqb_refl].
Qed.

Lemma insert_order_app l1 l2 acc :
  insert_order (l1 ++ l2) acc = insert_order l2 (insert_order l1 acc).
Proof. revert acc. induction l1; simpl; auto. Qed.

Lemma insert_order_extends l acc :
  exists fresh, insert_order l acc = acc ++ fresh /\
                Forall (fun x => ~ In x acc /\ In x l) fresh.
Proof.
  revert acc. induction l as [|k r IH]; intros acc; simpl.
  - exists []. rewrite app_nil_r. split; [reflexivity|constructor].
  - destruct (existsb (String.eqb k) acc) eqn:E.
    + destruct (IH acc) as [fresh [H1 H2]]. exists fresh. split; [exact H1|].
      eapply Forall_impl; [|exact H2]. simpl. tauto.
    + destruct (IH (acc ++ [k])) as [fresh [H1 H2]].
      exists (k :: fresh). rewrite H1, <- app_assoc. split; [reflexivity|].
      constructor.
      * split; [|left; reflexivity]. intros H. apply existsb_eqb_in in H. congruence.
      * eapply Forall_impl; [|exact H2]. simpl. intros x [Hx Hl].
        rewrite in_app_iff in Hx. split; [tauto|right; exact Hl].
Qed.

Lemma in_insert_order x l acc : In x (insert_order l acc) <-> In x acc \/ In x l.
Proof.
  revert acc. induction l as [|k r IH]; intros acc; simpl; [tauto|].
  rewrite IH. destruct (existsb (String.eqb k) acc) eqn:E.
  - apply existsb_eqb_in in E. split; [tauto|].
    intros [H|[<-|H]]; auto.
  - rewrite in_app_iff. simpl. tauto.
Qed.

(** C5. When the proxy answers 200 with a list of named dicts, every name
    of that list has exactly one entry in the aggregated catalog, tagged
    [source = "proxy"] (the last proxy entry of that name wins, also over a
    static entry); and whatever the proxy does, no name occurs twice in the
    aggregated catalog. *)
Theorem get_all_unique_names (ranked_mcps : list descriptor) (items : list json)
    (st' res : list descriptor) :
  Forall well_formed_item items ->
  get_all_mcp_sources ranked_mcps (proxy_list items) = (st', Ret res) ->
  (forall n, In n (map json_key items) ->
     exists t, filter (has_name n) res = [t] /\ source t = Some "proxy") /\
  (forall o st'' res', get_all_mcp_sources ranked_mcps o = (st'', Ret res') ->
     NoDup (map name res')).
Proof.
  intros Hw H. split.
  - intros n Hn. rewrite get_all_mcp_sources_eq in H.
    destruct (static_loop ranked_mcps []) as [s [d|e]] eqn:E; inversion H; subst.
    assert (Hd : dict_ok d).
    { apply (static_loop_ok ranked_mcps []); [exact dict_ok_nil|rewrite E; reflexivity]. }
    change (proxy_block (proxy_list items) d) with (fst (proxy_loop items d)).
    destruct (proxy_loop_tagged items d n Hw (or_introl Hn)) as [t [Ht Hs]].
    exists t. split; [|exact Hs].
    apply dict_ok_filter; [apply proxy_loop_ok, Hd|exact Ht].
  - intros o st'' res' H'. rewrite get_all_mcp_sources_eq in H'.
    destruct (static_loop ranked_mcps []) as [s [d|e]] eqn:E; inversion H'; subst.
    apply dict_ok_names, proxy_block_ok.
    apply (static_loop_ok ranked_mcps []); [exact dict_ok_nil|rewrite E; reflexivity].
Qed.

Lemma get_all_unique_names_witness :
  Forall well_formed_item [JObj web_tool; JObj new_tool] /\
  get_all_mcp_sources example_catalog (proxy_list [JObj web_tool; JObj new_tool]) =
    (map (set_source "static") example_catalog,
     Ret [set_source "static" fs_tool; set_source "proxy" web_tool;
          set_source "proxy" new_tool]) /\
  ((forall n, In n (map json_key [JObj web_tool; JObj new_tool]) ->
     exists t, filter (has_name n) [set_source "static" fs_tool;
                 set_source "proxy" web_tool; set_source "proxy" new_tool] = [t] /\
               source t = Some "proxy") /\
   (forall o st'' res', get_all_mcp_sources example_catalog o = (st'', Ret res') ->
     NoDup (map name res'))).
Proof.
  assert (Hw : Forall well_formed_item [JObj web_tool; JObj new_tool]).
  { repeat constructor; eexists; eexists; split; reflexivity. }
  split; [exact Hw|]. split; [vm_compute; reflexivity|].
  apply (get_all_unique_names example_catalog _ (map (set_source "static") example_catalog));
    [exact Hw|vm_compute; reflexivity].
Defined.

(** C10. With a proxy list of named dicts, the aggregated catalog lists
    the names in the order of their first insertion: the static names in
    catalog order (a proxy entry that replaces a static one takes its
    place), then the proxy names that are new, in proxy order. *)
Theorem get_all_insertion_order (ranked_mcps : list descriptor) (items : list json)
    (st' res : list descriptor) :
  Forall well_formed_item items ->
  get_all_mcp_sources ranked_mcps (proxy_list items) = (st', Ret res) ->
  map name res =
    map Some (insert_order (map get_name ranked_mcps ++ map json_key items) []) /\
  exists fresh,
    map name res = map Some (insert_order (map get_name ranked_mcps) [] ++ fresh) /\
    Forall (fun n => ~ In n (map get_name ranked_mcps) /\ In n (map json_key items))
      fresh.
Proof.
  intros Hw H. rewrite get_all_mcp_sources_eq in H.
  destruct (static_loop ranked_mcps []) as [s [d|e]] eqn:E; inversion H; subst.
  assert (Hd : dict_ok d).
  { apply (static_loop_ok ranked_mcps []); [exact dict_ok_nil|rewrite E; reflexivity]. }
  assert (Hn : Forall named ranked_mcps).
  { apply (static_loop_ret_named ranked_mcps [] d). rewrite E. reflexivity. }
  destruct (static_loop_named ranked_mcps [] Hn) as [_ [d' [Hr Hk]]].
  rewrite E in Hr. simpl in Hr. inversion Hr; subst d'. simpl in Hk.
  change (proxy_block (proxy_list items) d) with (fst (proxy_loop items d)).
  rewrite dict_ok_names_keys by (apply proxy_loop_ok, Hd).
  rewrite proxy_loop_keys, Hk by exact Hw.
  rewrite insert_order_app. split; [reflexivity|].
  destruct (insert_order_extends (map json_key items)
              (insert_order (map get_name ranked_mcps) [])) as [fresh [H1 H2]].
  exists fresh. rewrite H1. split; [reflexivity|].
  eapply Forall_impl; [|exact H2]. simpl. intros x [Hx Hl]. split; [|exact Hl].
  intros Hin. apply Hx, in_insert_order. right; exact Hin.
Qed.

Lemma get_all_insertion_order_witness :
  Forall well_formed_item [JObj new_tool; JObj web_tool] /\
  get_all_mcp_sources example_catalog (proxy_list [JObj new_tool; JObj web_tool]) =
    (map (set_source "static") example_catalog,
     Ret [set_source "static" fs_tool; set_source "proxy" web_tool;
          set_source "proxy" new_tool]) /\
  (map name [set_source "static" fs_tool; set_source "proxy" web_tool;
             set_source "proxy" new_tool] =
     map Some (insert_order (map get_name example_catalog ++
                             map json_key [JObj new_tool; JObj web_tool]) []) /\
   exists fresh,
     map name [set_source "static" fs_tool; set_source "proxy" web_tool;
               set_source "proxy" new_tool] =
       map Some (insert_order (map get_name example_catalog) [] ++ fresh) /\
     Forall (fun n => ~ In n (map get_name example_catalog) /\
                      In n (map json_key [JObj new_tool; JObj web_tool])) fresh).
Proof.
  assert (Hw : Forall well_formed_item [JObj new_tool; JObj web_tool]).
  { repeat constructor; eexists; eexists; split; reflexivity. }
  split; [exact Hw|]. split; [vm_compute; reflexivity|].
  apply (get_all_insertion_order example_catalog _ (map (set_source "static") example_catalog));
    [exact Hw|vm_compute; reflexivity].
Defined.

Lemma dict_set_fresh k v d : ~ In k (map fst d) -> dict_set k v d = d ++ [(k, v)].
Proof.
  induction d as [|[k' v'] r IH]; simpl; [reflexivity|].
  intros Hk. destruct (String.eqb k k') eqn:E.
  - apply String.eqb_eq in E. subst. tauto.
  - rewrite IH by tauto. reflexivity.
Qed.

Lemma static_loop_distinct st d :
  NoDup (map name st) -> Forall named st ->
  (forall t, In t st -> ~ In (get_name t) (map fst d)) ->
  snd (static_loop st d) = Ret (d ++ map (fun t => (get_name t, set_source "static" t)) st).
Proof.
  revert d. induction st as [|t rest IH]; intros d Hnd Hn Hfresh; simpl.
  - rewrite app_nil_r. reflexivity.
  - inversion Hnd as [|? ? Ht Hnd']; subst. inversion Hn as [|? ? Htn Hn']; subst.
    destruct (name t) as [n|] eqn:En; [|congruence].
    assert (Hg : get_name t = n) by (unfold get_name; rewrite En; reflexivity).
    rewrite dict_set_fresh
      by (rewrite <- Hg; apply Hfresh; left; reflexivity).
    assert (Hfresh' : forall t', In t' rest ->
              ~ In (get_name t') (map fst (d ++ [(n, set_source "static" t)]))).
    { intros t' Ht' Hin. rewrite map_app, in_app_iff in Hin. simpl in Hin.
      destruct Hin as [Hin|[Heq|[]]]; [exact (Hfresh t' (or_intror Ht') Hin)|].
      apply Ht. rewrite <- En.
      assert (Hn2 : named t') by (rewrite Forall_forall in Hn'; auto).
      unfold get_name in Heq. destruct (name t') eqn:E'; [|congruence].
      subst. apply in_map_iff. exists t'. split; [congruence|exact Ht']. }
    pose proof (IH _ Hnd' Hn' Hfresh') as Hi.
    destruct (static_loop rest (d ++ [(n, set_source "static" t)])) as [s r].
    simpl in *. rewrite Hi, <- app_assoc, Hg. reflexivity.
Qed.

(** A failed request, a status other than 200 or a body that does not
    decode leave the static catalog alone in the result. *)
Lemma get_all_mcp_sources_fallback st o :
  NoDup (map name st) -> Forall named st ->
  match o with
  | GetRaised _ => True
  | GetResponse r => status_code r <> 200%Z \/ exists m, body r = DecodeError m
  end ->
  get_all_mcp_sources st o =
    (map (set_source "static") st, Ret (map (set_source "static") st)).
Proof.
  intros Hnd Hn Ho. rewrite get_all_mcp_sources_eq.
  destruct (static_loop_named st [] Hn) as [Hs _]. rewrite Hs.
  rewrite static_loop_distinct by (auto; intros t _ []).
  simpl. f_equal. f_equal.
  assert (Hb : proxy_block o (map (fun t => (get_name t, set_source "static" t)) st) =
               map (fun t => (get_name t, set_source "static" t)) st).
  { destruct o as [e|r]; [reflexivity|]. simpl.
    destruct Ho as [Hs200|[m Hm]].
    - apply Z.eqb_neq in Hs200. rewrite Hs200. reflexivity.
    - destruct (status_code r =? 200)%Z; [|reflexivity].
      unfold res_json. rewrite Hm. reflexivity. }
  rewrite Hb. unfold dict_values. rewrite map_map. reflexivity.
Qed.

(** ** What a request writes *)

(** C3 (as stated, refuted). A single aggregation writes
    [source = "static"] into the entries of the static catalog. *)
Lemma aggregation_writes_static_catalog :
  ~ (forall (ranked_mcps : list descriptor) (o : http_outcome),
       fst (get_all_mcp_sources ranked_mcps o) = ranked_mcps).
Proof.
  intros H.
  specialize (H example_catalog (GetRaised (RequestException "Read timed out"))).
  vm_compute in H. discriminate H.
Qed.

(** C3 (amended). [/recommend] and [/list_tools] leave the static catalog
    unchanged. The aggregator, and so [/recommend-ai], sets
    [source = "static"] on the static entries it visits, in place, and
    changes nothing else: on a normal return every entry is tagged, and a
    further aggregation changes nothing more. *)
Theorem request_catalog_effects (ranked_mcps : list descriptor)
    (o : http_outcome) (llm : string -> list descriptor -> Z -> llm_outcome)
    (query task : string) (top_k : Z) :
  fst (recommend_mcp ranked_mcps query top_k) = ranked_mcps /\
  fst (fetch_mcp_tools ranked_mcps o) = ranked_mcps /\
  fst (recommend_ai ranked_mcps o llm task top_k) =
    fst (get_all_mcp_sources ranked_mcps o) /\
  (exists m, fst (get_all_mcp_sources ranked_mcps o) =
             map (set_source "static") (firstn m ranked_mcps) ++ skipn m ranked_mcps) /\
  (forall res, snd (get_all_mcp_sources ranked_mcps o) = Ret res ->
     fst (get_all_mcp_sources ranked_mcps o) = map (set_source "static") ranked_mcps /\
     forall o', fst (get_all_mcp_sources (fst (get_all_mcp_sources ranked_mcps o)) o') =
                fst (get_all_mcp_sources ranked_mcps o)).
Proof.
  split; [reflexivity|]. split; [reflexivity|]. split.
  - unfold recommend_ai. destruct (get_all_mcp_sources ranked_mcps o) as [s [all|e]]; [|reflexivity].
    destruct (llm task (filtered_tools task all) top_k) as [e|status txt [c|e]]; [reflexivity| |];
      destruct (negb (status =? 200)%Z); reflexivity.
  - rewrite get_all_mcp_sources_eq. simpl. split; [apply static_loop_state|].
    intros res Hr.
    destruct (snd (static_loop ranked_mcps [])) as [d|e] eqn:E; [|discriminate].
    assert (Hn : Forall named ranked_mcps) by (eapply static_loop_ret_named; exact E).
    destruct (static_loop_named ranked_mcps [] Hn) as [Hs _]. rewrite Hs.
    split; [reflexivity|]. intros o'. rewrite get_all_mcp_sources_eq. simpl.
    assert (Hn' : Forall named (map (set_source "static") ranked_mcps)).
    { rewrite Forall_map. eapply Forall_impl; [|exact Hn]. unfold named. simpl. auto. }
    destruct (static_loop_named _ [] Hn') as [Hs' _]. rewrite Hs', map_map.
    reflexivity.
Qed.

(** ** Failures of the proxy *)

(** C4 (code defect). A 200 answer whose list has a dict without a name
    after a good entry: the good entry is merged, then [KeyError] is
    caught, and the result is not the static catalog. *)
Theorem get_all_partial_proxy_contribution :
  get_all_mcp_sources example_catalog
    (proxy_list [JObj new_tool; JObj nameless_tool]) =
  (map (set_source "static") example_catalog,
   Ret [set_source "static" fs_tool; set_source "static" web_tool;
        set_source "proxy" new_tool]).
Proof. vm_compute. reflexivity. Qed.

(** * Further properties of [app.py] *)

(** ** Tokens of [str.split()] *)

Lemma split_acc_nonempty s cur : Forall (fun t => t <> "") (split_acc s cur).
Proof.
  revert cur. induction s as [|c r IH]; intros cur; simpl.
  - destruct (String.eqb cur "") eqn:E; constructor; [|constructor].
    apply String.eqb_neq, E.
  - destruct (is_space c); [|apply IH].
    apply Forall_app. split; [|apply IH].
    destruct (String.eqb cur "") eqn:E; constructor; [|constructor].
    apply String.eqb_neq, E.
Qed.

Lemma str_in_empty_hay t : t <> "" -> str_in t "" = false.
Proof. destruct t; [congruence|reflexivity]. Qed.

Lemma str_in_empty_needle h : str_in "" h = true.
Proof. apply str_in_prefix. destruct h; reflexivity. Qed.

Lemma lower_app a b : lower (a ++ b)%string = (lower a ++ lower b)%string.
Proof. induction a as [|c a IH]; simpl; congruence. Qed.

Lemma split_acc_space a b cur :
  split_acc (a ++ String " " b)%string cur = split_acc a cur ++ split_acc b "".
Proof.
  revert cur. induction a as [|c a IH]; intros cur; simpl; [reflexivity|].
  destruct (is_space c); [rewrite IH, app_assoc; reflexivity|apply IH].
Qed.

Lemma py_split_join l : py_split (join_space l) = flat_map py_split l.
Proof.
  unfold join_space, py_split.
  induction l as [|x [|y r] IH]; simpl; [reflexivity|rewrite app_nil_r; reflexivity|].
  simpl in IH. rewrite <- IH. apply split_acc_space.
Qed.

Lemma lower_join l : lower (join_space l) = join_space (map lower l).
Proof.
  unfold join_space.
  induction l as [|x [|y r] IH]; simpl; [reflexivity|reflexivity|].
  simpl in IH. rewrite lower_app. simpl. rewrite IH. reflexivity.
Qed.

(** ** Scores *)

(** X1. With the empty query, [relevance] gives +3 to every tool (the
    empty string is in every description), never the tag bonus (no token
    is empty), and +5 exactly to the tools without a name or with the
    empty name. *)
Theorem relevance_empty_query (d : descriptor) :
  relevance "" d ==
    3 + (if String.eqb (get_name d) "" then 5 else 0) + get_rank d * 5.
Proof.
  rewrite relevance_eq_formula. unfold relevance_formula. simpl lower.
  rewrite str_in_empty_needle.
  assert (Ht : existsb (fun tok => str_in tok "")
                 (py_split (lower (join_space (get_tags d)))) = false).
  { destruct (existsb _ _) eqn:E; [|reflexivity].
    apply existsb_exists in E as [tok [Hin Hs]].
    pose proof (split_acc_nonempty (lower (join_space (get_tags d))) "") as Hf.
    rewrite Forall_forall in Hf. rewrite str_in_empty_hay in Hs by (apply Hf, Hin).
    discriminate. }
  rewrite Ht. destruct (get_name d) as [|c n]; simpl; lra.
Qed.

(** X2. The [/recommend] score lies between [mcprank_score * 5] and
    [mcprank_score * 5 + 10], the [/recommend-ai] pre-filter score between
    [mcprank_score * 2] and [mcprank_score * 2 + 3]. *)
Theorem score_bounds (q : string) (d : descriptor) :
  get_rank d * 5 <= relevance q d <= get_rank d * 5 + 10 /\
  get_rank d * 2 <= quick_relevance q d <= get_rank d * 2 + 3.
Proof.
  rewrite relevance_eq_formula. unfold relevance_formula, quick_relevance.
  destruct (str_in (lower q) _), (existsb _ _), (str_in (get_name d) q); lra.
Qed.

(** X3. Joining the tags with spaces and splitting the lower-cased result
    on whitespace gives the words of each tag in turn: the tag bonus of
    both scores is given exactly when a word of one tag, lower-cased, is
    in the lower-cased query; two tags are never fused into one token. *)
Theorem tag_tokens_per_tag (q : string) (tags : list string) :
  py_split (lower (join_space tags)) = flat_map (fun tag => py_split (lower tag)) tags /\
  existsb (fun tok => str_in tok (lower q)) (py_split (lower (join_space tags))) =
  existsb (fun tag => existsb (fun tok => str_in tok (lower q)) (py_split (lower tag)))
    tags.
Proof.
  assert (H : py_split (lower (join_space tags)) =
              flat_map (fun tag => py_split (lower tag)) tags).
  { rewrite lower_join, py_split_join. induction tags; simpl; congruence. }
  split; [exact H|]. rewrite H. clear H.
  induction tags as [|t r IH]; simpl; [reflexivity|].
  rewrite existsb_app, IH. reflexivity.
Qed.

(** ** [/recommend] after an aggregation *)

Lemma sorted_reverse_ext {A} (k1 k2 : A -> Q) l :
  (forall x, k1 x = k2 x) -> sorted_reverse k1 l = sorted_reverse k2 l.
Proof.
  intros H. induction l as [|x r IH]; simpl; [reflexivity|]. rewrite IH.
  generalize (sorted_reverse k2 r). induction l as [|y s IHs]; simpl; [reflexivity|].
  rewrite !H. destruct (Qlt_le_dec (k2 x) (k2 y)); congruence.
Qed.

Lemma py_slice_upto_map {A B} (f : A -> B) l k :
  py_slice_upto (map f l) k = map f (py_slice_upto l k).
Proof. unfold py_slice_upto. rewrite length_map. destruct (0 <=? k)%Z; apply firstn_map. Qed.

Lemma get_all_ret_state st o res :
  snd (get_all_mcp_sources st o) = Ret res ->
  fst (get_all_mcp_sources st o) = map (set_source "static") st.
Proof.
  rewrite get_all_mcp_sources_eq. simpl. intros Hr.
  destruct (snd (static_loop st [])) as [d|e] eqn:E; [|discriminate].
  apply static_loop_named. eapply static_loop_ret_named. exact E.
Qed.

(** X4. The aggregator's write into the static catalog does not change
    what [/recommend] ranks: after an aggregation that returned, it gives
    the same entries in the same order, now carrying [source = "static"]. *)
Theorem recommend_after_aggregation (ranked_mcps : list descriptor)
    (o : http_outcome) (res : list descriptor) (query : string) (top_k : Z) :
  snd (get_all_mcp_sources ranked_mcps o) = Ret res ->
  recommend_mcp (fst (get_all_mcp_sources ranked_mcps o)) query top_k =
    (fst (get_all_mcp_sources ranked_mcps o),
     Ret {| rec_query := query;
            recommendations :=
              map (set_source "static")
                (py_slice_upto (sorted_reverse (relevance query) ranked_mcps) top_k) |}).
Proof.
  intros Hr. rewrite (get_all_ret_state _ _ _ Hr). unfold recommend_mcp.
  rewrite sorted_reverse_map, (sorted_reverse_ext _ (relevance query)) by reflexivity.
  rewrite py_slice_upto_map. reflexivity.
Qed.

Lemma recommend_after_aggregation_witness :
  snd (get_all_mcp_sources example_catalog (GetRaised (RequestException "refused"))) =
    Ret (map (set_source "static") example_catalog) /\
  recommend_mcp (fst (get_all_mcp_sources example_catalog
                        (GetRaised (RequestException "refused")))) "read files" 1 =
    (fst (get_all_mcp_sources example_catalog (GetRaised (RequestException "refused"))),
     Ret {| rec_query := "read files";
            recommendations :=
              map (set_source "static")
                (py_slice_upto (sorted_reverse (relevance "read files") example_catalog) 1) |}).
Proof.
  split; [vm_compute; reflexivity|].
  apply (recommend_after_aggregation _ _ (map (set_source "static") example_catalog)).
  vm_compute. reflexivity.
Defined.

(** ** When the aggregator fails, and what a bad proxy body contributes *)

Lemma static_loop_raise st d e :
  snd (static_loop st d) = Raise e -> e = KeyError "name".
Proof.
  revert d. induction st as [|t rest IH]; intros d H; simpl in H; [discriminate|].
  destruct (name t) as [n|]; [|inversion H; reflexivity].
  destruct (static_loop rest (dict_set n (set_source "static" t) d)) as [s r] eqn:E.
  simpl in H. subst r. apply (IH (dict_set n (set_source "static" t) d)).
  rewrite E. reflexivity.
Qed.

Lemma nameless_or_named (l : list descriptor) :
  Exists (fun t => name t = None) l \/ Forall named l.
Proof.
  induction l as [|t r [IH|IH]]; [right; constructor|left; right; exact IH|].
  destruct (name t) eqn:E.
  - right. constructor; [unfold named; congruence|exact IH].
  - left. left. exact E.
Qed.

(** X5. Whatever the proxy does, the aggregator raises exactly when an
    entry of the static catalog has no name, and then with
    [KeyError('name')]: a proxy failure never makes it raise. *)
Theorem get_all_raises_iff_nameless (ranked_mcps : list descriptor)
    (o : http_outcome) :
  (forall e, snd (get_all_mcp_sources ranked_mcps o) = Raise e -> e = KeyError "name") /\
  ((exists e, snd (get_all_mcp_sources ranked_mcps o) = Raise e) <->
   Exists (fun t => name t = None) ranked_mcps).
Proof.
  rewrite get_all_mcp_sources_eq. simpl. split.
  - intros e H. destruct (snd (static_loop ranked_mcps [])) as [d|e'] eqn:E;
      inversion H; subst. eapply static_loop_raise. exact E.
  - split.
    + intros [e H]. destruct (snd (static_loop ranked_mcps [])) as [d|e'] eqn:E;
        [discriminate|].
      destruct (nameless_or_named ranked_mcps) as [Hex|Hn]; [exact Hex|].
      destruct (static_loop_named ranked_mcps [] Hn) as [_ [d' [Hr _]]].
      congruence.
    + intros Hex. destruct (snd (static_loop ranked_mcps [])) as [d|e'] eqn:E;
        [|eexists; reflexivity].
      exfalso. apply static_loop_ret_named in E.
      rewrite Exists_exists in Hex. destruct Hex as [t [Ht Hn]].
      rewrite Forall_forall in E. exact (E t Ht Hn).
Qed.

(** X6. A 200 answer whose JSON is not an array (an object, a string, a
    number, a boolean or null) adds nothing: the aggregator returns what
    it returns when the request fails. *)
Theorem get_all_non_array_body (ranked_mcps : list descriptor) (r : response)
    (v : json) (e : pyexc) :
  status_code r = 200%Z -> body r = Decoded v -> (forall l, v <> JArr l) ->
  get_all_mcp_sources ranked_mcps (GetResponse r) =
  get_all_mcp_sources ranked_mcps (GetRaised e).
Proof.
  intros Hs Hb Hv. rewrite !get_all_mcp_sources_eq.
  destruct (snd (static_loop ranked_mcps [])) as [d|e']; [|reflexivity].
  simpl. rewrite Hs. simpl. unfold res_json. rewrite Hb.
  destruct v as [| | | |l|t]; try reflexivity.
  - simpl. destruct (list_ascii_of_string s); reflexivity.
  - exfalso. exact (Hv l eq_refl).
  - simpl. destruct (keys t); reflexivity.
Qed.

Lemma get_all_non_array_body_witness :
  status_code {| status_code := 200; text := "{}"; body := Decoded (JObj fs_tool) |} = 200%Z /\
  body {| status_code := 200; text := "{}"; body := Decoded (JObj fs_tool) |} =
    Decoded (JObj fs_tool) /\
  (forall l, JObj fs_tool <> JArr l) /\
  get_all_mcp_sources example_catalog
    (GetResponse {| status_code := 200; text := "{}"; body := Decoded (JObj fs_tool) |}) =
  get_all_mcp_sources example_catalog (GetRaised (RequestException "refused")).
Proof.
  assert (Hv : forall l, JObj fs_tool <> JArr l) by (intros l H; discriminate H).
  split; [reflexivity|]. split; [reflexivity|]. split; [exact Hv|].
  apply (get_all_non_array_body _ _ (JObj fs_tool)); [reflexivity|reflexivity|exact Hv].
Defined.

Lemma proxy_loop_valid_prefix items d :
  fst (proxy_loop items d) = fst (proxy_loop (valid_prefix items) d).
Proof.
  revert d. induction items as [|j rest IH]; intros d; simpl; [reflexivity|].
  destruct j as [| | | | |t]; try reflexivity.
  destruct (name t) as [n|] eqn:En; simpl; rewrite ?En; [apply IH|reflexivity].
Qed.

(** X7. In a proxy list, the first item that is not a dict with a name cuts
    the list: the aggregator returns what it returns for the items before
    it alone; later items, good or bad, are never merged. *)
Theorem get_all_valid_prefix (ranked_mcps : list descriptor) (items : list json) :
  get_all_mcp_sources ranked_mcps (proxy_list items) =
  get_all_mcp_sources ranked_mcps (proxy_list (valid_prefix items)).
Proof.
  rewrite !get_all_mcp_sources_eq.
  destruct (snd (static_loop ranked_mcps [])) as [d|e]; [|reflexivity].
  change (proxy_block (proxy_list items) d) with (fst (proxy_loop items d)).
  change (proxy_block (proxy_list (valid_prefix items)) d)
    with (fst (proxy_loop (valid_prefix items) d)).
  rewrite proxy_loop_valid_prefix. reflexivity.
Qed.

(** ** Errors of the model call *)




(** ** The UI pages *)

(** X9. The [/ai] page: an empty task renders an empty response without
    aggregating or calling the model (the catalog is untouched). For a
    non-empty task, once the aggregator has returned, a non-200 answer of
    the model endpoint is shown as ["Error from AI: "] followed by the
    endpoint's body text (the ["Unknown error"] default is never reached),
    and a 200 answer shows the model's text. *)
Theorem ai_ui_responses (ranked_mcps : list descriptor) (o : http_outcome)
    (llm : string -> list descriptor -> Z -> llm_outcome) (task : string)
    (top_k : Z) (all_tools : list descriptor) :
  ai_ui ranked_mcps o llm "" top_k = (ranked_mcps, Ret ("", "")) /\
  (snd (get_all_mcp_sources ranked_mcps o) = Ret all_tools -> task <> "" ->
   (forall status txt content,
      llm task (filtered_tools task all_tools) top_k = PostResponse status txt content ->
      status <> 200%Z ->
      ai_ui ranked_mcps o llm task top_k =
        (fst (get_all_mcp_sources ranked_mcps o), Ret (task, ("Error from AI: " ++ txt)%string))) /\
   (forall txt c,
      llm task (filtered_tools task all_tools) top_k = PostResponse 200 txt (Ret c) ->
      ai_ui ranked_mcps o llm task top_k =
        (fst (get_all_mcp_sources ranked_mcps o), Ret (task, c)))).
Proof.
  split; [reflexivity|]. intros Hall Ht.
  apply String.eqb_neq in Ht. unfold ai_ui, recommend_ai. rewrite Ht.
  destruct (get_all_mcp_sources ranked_mcps o) as [s r]. simpl in Hall. subst r.
  split.
  - intros status txt content Hl Hs. rewrite Hl.
    apply Z.eqb_neq in Hs. rewrite Hs. reflexivity.
  - intros txt c Hl. rewrite Hl. reflexivity.
Qed.

(** The model endpoint of the witness: it answers 503. *)
Definition llm_unavailable : string -> list descriptor -> Z -> llm_outcome :=
  fun _ _ _ => PostResponse 503 "Service Unavailable" (Raise (KeyError "choices")).

Lemma ai_ui_responses_witness :
  snd (get_all_mcp_sources example_catalog (GetRaised (RequestException "refused"))) =
    Ret (map (set_source "static") example_catalog) /\
  "read files" <> "" /\
  ai_ui example_catalog (GetRaised (RequestException "refused")) llm_unavailable
    "read files" 5 =
  (map (set_source "static") example_catalog,
   Ret ("read files", "Error from AI: Service Unavailable")).
Proof.
  assert (Hne : "read files" <> "") by discriminate.
  assert (Ha : snd (get_all_mcp_sources example_catalog
                      (GetRaised (RequestException "refused"))) =
               Ret (map (set_source "static") example_catalog))
    by (vm_compute; reflexivity).
  split; [exact Ha|]. split; [exact Hne|].
  destruct (ai_ui_responses example_catalog (GetRaised (RequestException "refused"))
              llm_unavailable "read files" 5 (map (set_source "static") example_catalog)) as [_ H].
  destruct (H Ha Hne) as [Herr _].
  rewrite (Herr 503%Z "Service Unavailable" (Raise (KeyError "choices")) eq_refl)
    by discriminate.
  reflexivity.
Defined.

(** X10. The [/search] page leaves the catalog unchanged; it lists nothing
    for an empty query, and for any other query and [top_k >= 0] exactly
    [min(top_k, |catalog|)] entries, in descending [relevance] order. *)
Theorem search_ui_results (ranked_mcps : list descriptor) (query : string)
    (top_k : Z) :
  fst (search_ui ranked_mcps query top_k) = ranked_mcps /\
  (query = "" -> snd (search_ui ranked_mcps query top_k) = Ret (query, [])) /\
  (query <> "" -> (0 <= top_k)%Z ->
   exists results,
     snd (search_ui ranked_mcps query top_k) = Ret (query, results) /\
     length results = Nat.min (Z.to_nat top_k) (length ranked_mcps) /\
     Sorted (desc (relevance query)) results /\
     incl results ranked_mcps).
Proof.
  unfold search_ui, recommend_mcp.
  destruct (String.eqb query "") eqn:E.
  - apply String.eqb_eq in E. subst. split; [reflexivity|].
    split; [reflexivity|]. intros H; congruence.
  - split; [reflexivity|]. split; [intros H; apply String.eqb_neq in E; congruence|].
    intros _ Hk. apply Z.leb_le in Hk.
    exists (firstn (Z.to_nat top_k) (sorted_reverse (relevance query) ranked_mcps)).
    split; [unfold py_slice_upto; rewrite Hk; reflexivity|].
    pose proof (sorted_reverse_strongly (relevance query) ranked_mcps) as Hs.
    rewrite <- (firstn_skipn (Z.to_nat top_k)) in Hs.
    apply StronglySorted_app_split in Hs as [Hs _].
    split; [rewrite length_firstn, sorted_reverse_length; reflexivity|].
    split; [apply StronglySorted_Sorted, Hs|].
    intros x Hx. eapply Permutation_in; [apply sorted_reverse_perm|].
    rewrite <- (firstn_skipn (Z.to_nat top_k)). apply in_or_app. left; exact Hx.
Qed.

Lemma search_ui_results_witness :
  snd (search_ui example_catalog "read files" 1) =
    Ret ("read files", [fs_tool]) /\
  (exists results,
     snd (search_ui example_catalog "read files" 1) = Ret ("read files", results) /\
     length results = Nat.min (Z.to_nat 1) (length example_catalog) /\
     Sorted (desc (relevance "read files")) results /\
     incl results example_catalog).
Proof.
  split; [vm_compute; reflexivity|].
  destruct (search_ui_results example_catalog "read files" 1) as [_ [_ H]].
  apply H; [discriminate|lia].
Defined.
